(** * Brand Fit Auditor: the deterministic core of [app.py]

    A shallow embedding of the pure parts of [app.py] (score reconciliation,
    hotspot de-duplication, JSON span recovery, evidence pack assembly and
    the refine decision of the brand research step), and the properties of
    the specification that concern them.

    Conventions of the embedding.
    - A JSON value as [json.loads] returns it is a [value]; a Python [dict]
      with string keys is a [gmap string value].
    - Python [float]s are modelled by exact rationals ([Q]) together with
      the three non-finite values.  Rounding and overflow of IEEE doubles in
      [+], [-], [*], [/] are not modelled: arithmetic is exact.
    - A Python [str] is a [string]; its characters are read as code points
      below 256.
    - A computation that may raise is a [result]; [Raise Unmodelled] is not
      a Python exception: it marks inputs whose behaviour this development
      does not describe (see [finite] and [py_iter]). *)

From Stdlib Require Import ZArith QArith Qround Qabs Lqa String Ascii List Permutation Sorted Lia.
From stdpp Require Import base option gmap strings list fin_maps sorting.

Local Open Scope string_scope.
Local Open Scope list_scope.
Local Open Scope Z_scope.

(** ** Python values *)

Inductive pyfloat := Fin (q : Q) | NaN | Inf (neg : bool).

#[warnings="-register-all"]
Inductive value :=
| VNone
| VBool (b : bool)
| VInt (z : Z)
| VFloat (f : pyfloat)
| VStr (s : string)
| VList (l : list value)
| VDict (d : gmap string value).

Abbreviation dict := (gmap string value).

Inductive exn :=
| TypeError | ValueError | OverflowError | AttributeError | Unmodelled.

Inductive result (A : Type) :=
| Ok (a : A)
| Raise (e : exn).
Arguments Ok {A} a.
Arguments Raise {A} e.

#[global] Instance result_ret : MRet result := fun _ a => Ok a.
#[global] Instance result_bind : MBind result := fun _ _ f m =>
  match m with Ok a => f a | Raise e => Raise e end.

(** [try: ... except Exception: <default>] *)
Definition except {A} (m : result A) (dflt : A) : A :=
  match m with Ok a => a | Raise _ => dflt end.

Fixpoint mapM {A B} (f : A -> result B) (l : list A) : result (list B) :=
  match l with
  | [] => Ok []
  | x :: r => y ← f x; ys ← mapM f r; Ok (y :: ys)
  end.

(** ** Built-ins *)

Definition Qltb (a b : Q) : bool := negb (Qle_bool b a).

(** [x < y] and [x > y] on floats; every comparison with NaN is false. *)
Definition flt (a b : pyfloat) : bool :=
  match a, b with
  | NaN, _ | _, NaN => false
  | Fin x, Fin y => Qltb x y
  | Inf n, Inf m => n && negb m
  | Inf n, Fin _ => n
  | Fin _, Inf m => negb m
  end.

(** [bool(v)] *)
Definition truthy (v : value) : bool :=
  match v with
  | VNone => false
  | VBool b => b
  | VInt z => negb (z =? 0)
  | VFloat (Fin q) => negb (Qeq_bool q 0)
  | VFloat _ => true
  | VStr s => negb (String.eqb s EmptyString)
  | VList l => match l with [] => false | _ => true end
  | VDict d => match map_to_list d with [] => false | _ => true end
  end.

(** [a or b] *)
Definition py_or (a b : value) : value := if truthy a then a else b.

(** [d.get(k, dflt)] *)
Definition get (d : dict) (k : string) (dflt : value) : value :=
  match d !! k with Some v => v | None => dflt end.

(** The largest magnitude an [int] may have for [float(int)] not to raise:
    from [2^1024 - 2^970] on, rounding to nearest-even leaves the doubles. *)
Definition float_int_limit : Z := 2 ^ 1024 - 2 ^ 970.

(** The parts of the Python runtime the code relies on and whose behaviour
    is fixed outside [app.py]. *)
Definition hashable (v : value) : bool :=
  match v with VList _ | VDict _ => false | _ => true end.

Definition num_of (v : value) : option pyfloat :=
  match v with
  | VBool b => Some (Fin (if b then 1 else 0))
  | VInt z => Some (Fin (inject_Z z))
  | VFloat f => Some f
  | _ => None
  end.

(** [a == b] on hashable values: numbers compare by value across [bool],
    [int] and [float]. *)
Definition py_eqb (a b : value) : bool :=
  match a, b with
  | VNone, VNone => true
  | VStr s, VStr t => String.eqb s t
  | _, _ =>
    match num_of a, num_of b with
    | Some (Fin x), Some (Fin y) => Qeq_bool x y
    | Some (Inf n), Some (Inf m) => Bool.eqb n m
    | _, _ => false
    end
  end.

(** The elements of [set(l)]: one representative (the first inserted) of
    each class of equal elements. *)
Fixpoint dedup_py (l : list value) : list value :=
  match l with
  | [] => []
  | x :: r => x :: List.filter (fun y => negb (py_eqb x y)) (dedup_py r)
  end.

Class Runtime := {
  (** [float(s)] on a [str]; [None] when it raises [ValueError]. *)
  str_to_float : string -> option pyfloat;
  (** [int(s)] on a [str]; [None] when it raises [ValueError]. *)
  str_to_int : string -> option Z;
  (** [[*set(l)]]: the order in which a set built from [l] is iterated.
      Python leaves it unspecified; only the elements are known. *)
  set_iter : list value -> list value;
  set_iter_perm : forall l, Permutation (set_iter l) (dedup_py l);
  (** [json.loads] and [json.dumps]. *)
  json_loads : string -> result value;
  json_dumps : value -> string
}.

Section Builtins.
Context `{RT : Runtime}.

(** [float(v)] *)
Definition py_float (v : value) : result pyfloat :=
  match v with
  | VBool b => Ok (Fin (if b then 1 else 0))
  | VInt z =>
      if Z.abs z <? float_int_limit then Ok (Fin (inject_Z z))
      else Raise OverflowError
  | VFloat f => Ok f
  | VStr s => match str_to_float s with Some f => Ok f | None => Raise ValueError end
  | VNone | VList _ | VDict _ => Raise TypeError
  end.

(** [int(v)]: floats are truncated toward zero. *)
Definition py_int (v : value) : result Z :=
  match v with
  | VBool b => Ok (if b then 1 else 0)
  | VInt z => Ok z
  | VFloat (Fin q) => Ok (Z.quot (Qnum q) (Zpos (Qden q)))
  | VFloat NaN => Raise ValueError
  | VFloat (Inf _) => Raise OverflowError
  | VStr s => match str_to_int s with Some z => Ok z | None => Raise ValueError end
  | VNone | VList _ | VDict _ => Raise TypeError
  end.

End Builtins.

(** [round(x)] of a float, to an [int]: to nearest, ties to even. *)
Definition round_half_even (q : Q) : Z :=
  let f := Qfloor q in
  match Qcompare (q - inject_Z f) (1 # 2) with
  | Lt => f
  | Gt => f + 1
  | Eq => if Z.even f then f else f + 1
  end.

Definition py_round (f : pyfloat) : result Z :=
  match f with
  | Fin q => Ok (round_half_even q)
  | NaN => Raise ValueError
  | Inf _ => Raise OverflowError
  end.

(** The floats the geometry is modelled on. *)
Definition finite (f : pyfloat) : result Q :=
  match f with Fin q => Ok q | _ => Raise Unmodelled end.

(** [s.lower()], on code points below 256. *)
Definition lower_char (c : ascii) : ascii :=
  let n := N_of_ascii c in
  if ((65 <=? n) && (n <=? 90))%N then ascii_of_N (n + 32)
  else if ((192 <=? n) && (n <=? 222) && negb (n =? 215))%N then ascii_of_N (n + 32)
  else c.

Fixpoint lower (s : string) : string :=
  match s with
  | EmptyString => EmptyString
  | String c r => String (lower_char c) (lower r)
  end.

(** [c.isspace()], on code points below 256. *)
Definition is_space (c : ascii) : bool :=
  let n := N_of_ascii c in
  (((9 <=? n) && (n <=? 13)) || ((28 <=? n) && (n <=? 32)) || (n =? 133) || (n =? 160))%N.

Fixpoint lstrip (s : string) : string :=
  match s with
  | EmptyString => EmptyString
  | String c r => if is_space c then lstrip r else s
  end.

Fixpoint rstrip (s : string) : string :=
  match s with
  | EmptyString => EmptyString
  | String c r =>
      match rstrip r with
      | EmptyString => if is_space c then EmptyString else String c EmptyString
      | r' => String c r'
      end
  end.

(** [s.strip()] *)
Definition strip (s : string) : string := rstrip (lstrip s).

(** ** Score reconciliation *)

Section Scores.
Context `{RT : Runtime}.

(** One entry of the list [valid_dims] returns: the dict
    [{"name": .., "score": .., "rationale": ..}]. *)
Record dim := { dim_name : string; dim_score : Z; dim_rationale : value }.

Definition dim_value (d : dim) : value :=
  VDict (<["name" := VStr (dim_name d)]>
        (<["score" := VInt (dim_score d)]>
        (<["rationale" := dim_rationale d]> ∅))).

Definition allowed : list string :=
  ["Tone & Voice"; "Visual Identity"; "Brand-Product Relevance"].

(** The body of the loop of [valid_dims] for one element [d]: [Some] is the
    appended entry, [None] when [d] is skipped (also by the [except]). *)
Definition valid_dim (d : value) : option dim :=
  match d with
  | VDict m =>
      match get m "name" VNone with
      | VStr n =>
          if bool_decide (n ∈ allowed) then
            except
              (score ← py_float (get m "score" (VInt 0));
               r ← py_round score;
               Ok (Some {| dim_name := n;
                           dim_score := Z.max 0 (Z.min 100 r);
                           dim_rationale := get m "rationale" (VStr EmptyString) |}))
              None
          else None
      | _ => None
      end
  | _ => None
  end.

(** [valid_dims(items)].  [for d in items or []] raises on a true number;
    the characters of a string and the keys of a dict are strings, which
    the [isinstance(d, dict)] test skips. *)
Definition valid_dims (items : value) : result (list dim) :=
  if truthy items then
    match items with
    | VList l => Ok (omap valid_dim l)
    | VStr _ | VDict _ => Ok []
    | _ => Raise TypeError
    end
  else Ok [].

Definition compute_verdict (score : Z) : string :=
  if 80 <=? score then "Strong fit"
  else if 60 <=? score then "Good fit"
  else if 40 <=? score then "Borderline"
  else "Misaligned".

(** [sum(d["score"] for d in dims)] *)
Definition sum_scores (dims : list dim) : Z :=
  fold_right Z.add 0 (map dim_score dims).

(** [sum(...)/len(dims)] *)
Definition mean_score (dims : list dim) : Q :=
  inject_Z (sum_scores dims) / inject_Z (Z.of_nat (length dims)).

(** [reconcile_scores(fit)]; the dict it mutates and returns is the result. *)
Definition reconcile_scores (fit : dict) : result dict :=
  dims ← valid_dims (get fit "dimensions" VNone);
  match dims with
  | _ :: _ =>
      let avg := round_half_even (mean_score dims) in
      Ok (<["verdict" := VStr (compute_verdict avg)]>
         (<["overall_score" := VInt avg]>
         (<["dimensions" := VList (map dim_value dims)]> fit)))
  | [] =>
      n ← py_int (py_or (get fit "overall_score" (VInt 0)) (VInt 0));
      let overall := Z.max 0 (Z.min 100 n) in
      Ok (<["verdict" := VStr (compute_verdict overall)]>
         (<["overall_score" := VInt overall]> fit))
  end.

End Scores.

(** ** Hotspot de-duplication *)

Section Hotspots.
Context `{RT : Runtime}.
Local Open Scope Q_scope.

(** The tuple [(x1, y1, x2, y2)] that [_bbox] returns. *)
Record bbox := BBox { b0 : Q; b1 : Q; b2 : Q; b3 : Q }.

(** [max(a, b)] and [min(a, b)] of two floats: the first argument unless
    the second is strictly beyond it. *)
Definition fmax (a b : Q) : Q := if Qltb a b then b else a.
Definition fmin (a b : Q) : Q := if Qltb b a then b else a.

(** [(h.get("shape") or "circle").lower()] *)
Definition shape_of (h : dict) : result string :=
  match py_or (get h "shape" VNone) (VStr "circle") with
  | VStr s => Ok (lower s)
  | _ => Raise AttributeError
  end.

(** [float(h.get(k, dflt))] *)
Definition field (h : dict) (k : string) (dflt : value) : result Q :=
  f ← py_float (get h k dflt); finite f.

Definition _bbox (h : dict) : result bbox :=
  shape ← shape_of h;
  if String.eqb shape "rect" then
    x ← field h "x" (VInt 0%Z);
    y ← field h "y" (VInt 0%Z);
    w ← field h "w" (VInt 0%Z);
    hgt ← field h "h" (VInt 0%Z);
    Ok (BBox x y (x + w) (y + hgt))
  else
    cx ← field h "cx" (VFloat (Fin 0.5));
    cy ← field h "cy" (VFloat (Fin 0.5));
    r ← field h "r" (VFloat (Fin 0.1));
    Ok (BBox (cx - r) (cy - r) (cx + r) (cy + r)).

Definition _area (b : bbox) : Q :=
  fmax 0 (b2 b - b0 b) * fmax 0 (b3 b - b1 b).

Definition _iou (p q : bbox) : Q :=
  let ix1 := fmax (b0 p) (b0 q) in
  let iy1 := fmax (b1 p) (b1 q) in
  let ix2 := fmin (b2 p) (b2 q) in
  let iy2 := fmin (b3 p) (b3 q) in
  let iw := fmax 0 (ix2 - ix1) in
  let ih := fmax 0 (iy2 - iy1) in
  let inter := iw * ih in
  let union := _area p + _area q - inter in
  if Qltb 0 union then inter / union else 0.

(** The square of [_centerdist(p, q)]: [math.hypot] has no rational value,
    and [hypot(dx, dy) < d] is [dx*dx + dy*dy < d*d] for a positive [d]. *)
Definition _centerdist2 (p q : bbox) : Q :=
  let c1x := (b0 p + b2 p) / 2 in
  let c1y := (b1 p + b3 p) / 2 in
  let c2x := (b0 q + b2 q) / 2 in
  let c2y := (b1 q + b3 q) / 2 in
  (c1x - c2x) * (c1x - c2x) + (c1y - c2y) * (c1y - c2y).

(** [_iou(b, bk) > 0.55 or _centerdist(b, bk) < 0.12] *)
Definition mergeable (b bk : bbox) : bool :=
  Qltb 0.55 (_iou b bk) || Qltb (_centerdist2 b bk) (0.12 * 0.12).

Fixpoint chars (s : string) : list value :=
  match s with
  | EmptyString => []
  | String c r => VStr (String c EmptyString) :: chars r
  end.

(** [[*v]]: the elements [v] is unpacked to.  The keys of a dict come in
    insertion order, which a [gmap] does not record. *)
Definition py_iter (v : value) : result (list value) :=
  match v with
  | VList l => Ok l
  | VStr s => Ok (chars s)
  | VDict _ => Raise Unmodelled
  | _ => Raise TypeError
  end.

(** [[*{*l}]] *)
Definition set_of (l : list value) : result (list value) :=
  if forallb hashable l then Ok (set_iter l) else Raise TypeError.

(** [d.get(k) or []], unpacked *)
Definition items_of (d : dict) (k : string) : result (list value) :=
  py_iter (py_or (get d k VNone) (VList [])).

Definition _merge (a b : dict) : result dict :=
  let out := a in
  let out :=
    if negb (truthy (get out "label" VNone)) && truthy (get b "label" VNone)
    then <["label" := get b "label" VNone]> out else out in
  ra ← items_of out "risks";
  rb ← items_of b "risks";
  risks ← set_of (ra ++ rb);
  let out := <["risks" := VList risks]> out in
  ea ← items_of out "suggested_edits";
  es ← set_of ea;
  eb ← items_of b "suggested_edits";
  Ok (<["suggested_edits" := VList (es ++ eb)]> out).

(** [max(0.0, min(1.0, v))] *)
Definition clamp01 (v : pyfloat) : pyfloat :=
  let m := if flt v (Fin 1) then v else Fin 1 in
  if flt (Fin 0) m then m else Fin 0.

Definition coord_keys : list string := ["x"; "y"; "w"; "h"; "cx"; "cy"; "r"].

(** One round of the clamping loop: [hh[key]] is replaced when [float]
    accepts it and left alone otherwise. *)
Definition clamp_key (hh : dict) (key : string) : dict :=
  match hh !! key with
  | Some v => except (f ← py_float v; Ok (<[key := VFloat (clamp01 f)]> hh)) hh
  | None => hh
  end.

Definition clamp_hotspot (h : dict) : dict := foldl clamp_key h coord_keys.

(** The inner loop over [kept]: [Some] is [kept] after [h] was merged into
    its first mergeable entry, [None] when there is none. *)
Fixpoint merge_into (h : dict) (b : bbox) (kept : list dict) : result (option (list dict)) :=
  match kept with
  | [] => Ok None
  | k :: rest =>
      bk ← _bbox k;
      if mergeable b bk then m ← _merge k h; Ok (Some (m :: rest))
      else r ← merge_into h b rest; Ok (option_map (cons k) r)
  end.

(** One round of the outer loop. *)
Definition keep (kept : list dict) (h : dict) : result (list dict) :=
  b ← _bbox h;
  r ← merge_into h b kept;
  match r with
  | Some kept' => Ok kept'
  | None => Ok (kept ++ [clamp_hotspot h])
  end.

Fixpoint keep_all (kept : list dict) (hs : list dict) : result (list dict) :=
  match hs with
  | [] => Ok kept
  | h :: r => kept' ← keep kept h; keep_all kept' r
  end.

(** [sorted(hs, key=.., reverse=True)]: a stable sort, largest key first;
    an element goes behind those with a key at least as large. *)
Fixpoint insert_desc (x : Q * dict) (l : list (Q * dict)) : list (Q * dict) :=
  match l with
  | [] => [x]
  | y :: r => if Qltb (fst x) (fst y) then y :: insert_desc x r else x :: l
  end.

Definition sort_desc (l : list (Q * dict)) : list (Q * dict) :=
  fold_right insert_desc [] l.

Definition area_of (h : dict) : result Q := b ← _bbox h; Ok (_area b).

(** A hotspot with its sort key, [_area(_bbox(h))]. *)
Definition with_area (h : dict) : result (Q * dict) := a ← area_of h; Ok (a, h).

Definition dicts (l : list value) : list dict :=
  omap (fun v => match v with VDict d => Some d | _ => None end) l.

Definition dedupe_hotspots (hotspots : list value) : result (list dict) :=
  let hs := dicts hotspots in
  keyed ← mapM with_area hs;
  let hs_sorted := map snd (sort_desc keyed) in
  kept ← keep_all [] hs_sorted;
  Ok (firstn 12 kept).

End Hotspots.

(** ** Recovering the JSON object of a model response *)

Section Parse.
Context `{RT : Runtime}.

(** [s.find(c)] and [s.rfind(c)] for a one-character [c]: the first and the
    last index of [c], [-1] when [c] does not occur. *)
Fixpoint find (c : ascii) (s : string) : Z :=
  match s with
  | EmptyString => -1
  | String a r =>
      if Ascii.eqb a c then 0
      else let i := find c r in if i =? -1 then -1 else i + 1
  end.

Fixpoint rfind (c : ascii) (s : string) : Z :=
  match s with
  | EmptyString => -1
  | String a r =>
      let i := rfind c r in
      if i =? -1 then (if Ascii.eqb a c then 0 else -1) else i + 1
  end.

(** [raw[s:e]] for [0 <= s <= e] *)
Definition slice (raw : string) (s e : Z) : string :=
  String.substring (Z.to_nat s) (Z.to_nat (e - s)) raw.

(** What [parse_json_or_fail] does: it returns the parsed data, or shows
    the raw text under the title and stops the script ([st.stop()]). *)
Inductive parsed :=
| Parsed (data : value)
| Halted (fail_title raw : string).

Definition parse_json_or_fail (raw fail_title : string) : parsed :=
  let s := find "{" raw in
  let e := rfind "}" raw in
  let data :=
    if negb (s =? -1) && negb (e =? -1) && (s <? e)
    then except (json_loads (slice raw s (e + 1))) VNone
    else VNone in
  if negb (truthy data) then Halted fail_title raw else Parsed data.

End Parse.

(** ** Evidence packs *)

(** What [build_read_pack] reads off the tree [BeautifulSoup(html,
    "html.parser")] once the script, style, noscript, meta, iframe and svg
    tags are decomposed: for a tag its [get_text(" ", strip=True)] and its
    [get_text(strip=True)]; for the document the text of [soup.title], if
    any, the tags [h1..h4], the tags [strong, b, em, mark], the tags [li],
    all in document order, and [soup.get_text(" ", strip=True)]. *)
Record tag := { text_sep : string; text : string }.

Record soup := {
  soup_title : option string;
  soup_heads : list tag;
  soup_emph : list tag;
  soup_lis : list tag;
  soup_text : string
}.

Definition nl : string := String "010" EmptyString.

(** [sep.join(l)] *)
Fixpoint join (sep : string) (l : list string) : string :=
  match l with
  | [] => EmptyString
  | [x] => x
  | x :: r => x +:+ sep +:+ join sep r
  end.

(** [list(dict.fromkeys(l))]: each string once, at its first position. *)
Fixpoint fromkeys (l : list string) : list string :=
  match l with
  | [] => []
  | x :: r => x :: List.filter (fun y => negb (String.eqb x y)) (fromkeys r)
  end.

(** [s[:n]] *)
Definition prefix_to (n : Z) (s : string) : string :=
  let len := Z.of_nat (String.length s) in
  let stop := if n <? 0 then Z.max 0 (len + n) else n in
  String.substring 0 (Z.to_nat stop) s.

(** [[t.get_text(" ", strip=True) for t in tags if t.get_text(strip=True)]] *)
Definition texts (tags : list tag) : list string :=
  map text_sep (List.filter (fun t => negb (String.eqb (text t) EmptyString)) tags).

Definition bullets (label : string) (items : list string) : string :=
  label +:+ nl +:+ "- " +:+ join (nl +:+ "- ") items.

Definition block_if (c : bool) (b : string) : list string := if c then [b] else [].

Definition nonempty {A} (l : list A) : bool :=
  match l with [] => false | _ => true end.

Definition pack_body (sp : soup) (max_body : Z) : string :=
  prefix_to max_body (soup_text sp).

(** The list [blocks] at the end of [build_read_pack]. *)
Definition pack_blocks (sp : soup) (max_body : Z) : list string :=
  let title := strip (default EmptyString (soup_title sp)) in
  let heads := texts (soup_heads sp) in
  let emph := texts (soup_emph sp) in
  let lis := texts (soup_lis sp) in
  let body := pack_body sp max_body in
  block_if (negb (String.eqb title EmptyString)) ("[TITLE]" +:+ nl +:+ title)
  ++ block_if (nonempty heads) (bullets "[HEADLINES]" (fromkeys heads))
  ++ block_if (nonempty emph) (bullets "[EMPHASIS]" (fromkeys emph))
  ++ block_if (nonempty lis) (bullets "[LIST]" (firstn 300 lis))
  ++ ["[BODY]" +:+ nl +:+ body].

Definition build_read_pack (sp : soup) (max_body : Z) : string :=
  join (nl +:+ nl) (pack_blocks sp max_body).

(** ** Brand research with its refine pass *)

(** [v.get(k, dflt)]; only a dict has the method. *)
Definition py_get (v : value) (k : string) (dflt : value) : result value :=
  match v with
  | VDict d => Ok (get d k dflt)
  | _ => Raise AttributeError
  end.

(** [v.lower()] and [v.strip()]; only a string has the methods. *)
Definition py_lower (v : value) : result string :=
  match v with VStr s => Ok (lower s) | _ => Raise AttributeError end.

Definition py_strip (v : value) : result string :=
  match v with VStr s => Ok (strip s) | _ => Raise AttributeError end.

(** [(br_json.get("granularity","").lower() != "macro")
     or not (br_json.get("category") or "").strip()] *)
Definition need_refine (br_json : value) : result bool :=
  g ← py_get br_json "granularity" (VStr EmptyString);
  gl ← py_lower g;
  if negb (String.eqb gl "macro") then Ok true
  else
    c ← py_get br_json "category" VNone;
    cs ← py_strip (py_or c (VStr EmptyString));
    Ok (String.eqb cs EmptyString).

Section Research.
Context `{RT : Runtime}.

(** The prompt texts and titles are constants of [app.py]; the two
    functions stand for its f-strings. *)
Variable br_prompt : string -> string -> string.
Variable refine_prompt : string -> string -> string -> string.
Variables title_research title_refine : string.

(** [call_gemini_text n prompt]: the text the model returns to the [n]-th
    request of the run, which always is a string. *)
Variable call_gemini_text : nat -> string -> string.

(** How the research step ends. *)
Inductive research :=
| Profile (br_json : value)
| Stopped (fail_title raw : string)
| Failed (e : exn).

(** Step 1 of the run, from the research request to the profile that the
    rest of the script reads, with the prompts sent to the model. *)
Definition brand_research (brand evidence_text : string) : research * list string :=
  let p1 := br_prompt brand evidence_text in
  let br_raw := call_gemini_text 0 p1 in
  match parse_json_or_fail br_raw title_research with
  | Halted t raw => (Stopped t raw, [p1])
  | Parsed br_json =>
      match need_refine br_json with
      | Raise e => (Failed e, [p1])
      | Ok false => (Profile br_json, [p1])
      | Ok true =>
          let p2 := refine_prompt brand evidence_text (json_dumps br_json) in
          let br_raw2 := call_gemini_text 1 p2 in
          match parse_json_or_fail br_raw2 title_refine with
          | Halted t raw => (Stopped t raw, [p1; p2])
          | Parsed br_json2 => (Profile br_json2, [p1; p2])
          end
      end
  end.

End Research.
(** ** A reference runtime

    One concrete [Runtime], used to evaluate the code on examples.  Its
    parsers cover plain decimal numerals and JSON texts without escape
    sequences or exponents; what they do not cover is [Unmodelled], or is
    rejected where Python rejects it as well. *)

Module Ref.

Definition is_digit (c : ascii) : bool :=
  let n := N_of_ascii c in ((48 <=? n) && (n <=? 57))%N.

Definition digit_val (c : ascii) : Z := Z.of_N (N_of_ascii c) - 48.

(** The longest prefix of digits of [s], as a number with its digit count,
    and the rest of [s]. *)
Fixpoint digits (acc : Z) (n : nat) (s : string) : Z * nat * string :=
  match s with
  | String c r =>
      if is_digit c then digits (10 * acc + digit_val c) (S n) r else (acc, n, s)
  | EmptyString => (acc, n, s)
  end.

Definition sign (s : string) : bool * string :=
  match s with
  | String "-" r => (true, r)
  | String "+" r => (false, r)
  | _ => (false, s)
  end.

Definition signed (neg : bool) (z : Z) : Z := if neg then - z else z.

Definition str_to_int (s : string) : option Z :=
  let '(neg, r) := sign (strip s) in
  match digits 0 0 r with
  | (z, S _, EmptyString) => Some (signed neg z)
  | _ => None
  end.

(** [i.f] with [k] digits after the point. *)
Definition decimal (neg : bool) (i f : Z) (k : nat) : Q :=
  inject_Z (signed neg (i * 10 ^ Z.of_nat k + f)) / inject_Z (10 ^ Z.of_nat k).

Definition str_to_float (s : string) : option pyfloat :=
  let '(neg, r) := sign (strip s) in
  match digits 0 0 r with
  | (i, S _, EmptyString) => Some (Fin (inject_Z (signed neg i)))
  | (i, n, String "." r') =>
      match digits 0 0 r' with
      | (f, k, EmptyString) =>
          match n, k with
          | O, O => None
          | _, _ => Some (Fin (decimal neg i f k))
          end
      | _ => None
      end
  | _ => None
  end.

(** Sets are listed in insertion order. *)
Definition set_iter (l : list value) : list value := dedup_py l.

Definition json_ws (c : ascii) : bool :=
  let n := N_of_ascii c in ((n =? 32) || (n =? 9) || (n =? 10) || (n =? 13))%N.

Fixpoint skip_ws (s : string) : string :=
  match s with
  | String c r => if json_ws c then skip_ws r else s
  | EmptyString => s
  end.

(** The characters of a string literal up to its closing quote. *)
Fixpoint str_body (s : string) : result (string * string) :=
  match s with
  | EmptyString => Raise ValueError
  | String c r =>
      if Ascii.eqb c "034" then Ok (EmptyString, r)
      else if Ascii.eqb c "\" then Raise Unmodelled
      else if (N_of_ascii c <? 32)%N then Raise ValueError
      else '(b, r') ← str_body r; Ok (String c b, r')
  end.

Definition number (s : string) : result (value * string) :=
  let '(neg, r) := match s with String "-" r => (true, r) | _ => (false, s) end in
  let '(i, n, r1) :=
    match r with
    | String "0" r0 => (0, 1%nat, r0)
    | _ => digits 0 0 r
    end in
  match n with
  | O => Raise ValueError
  | S _ =>
      match r1 with
      | String "." r2 =>
          match digits 0 0 r2 with
          | (_, O, _) => Ok (VInt (signed neg i), r1)
          | (_, _, String "e" _) | (_, _, String "E" _) => Raise Unmodelled
          | (f, k, r3) => Ok (VFloat (Fin (decimal neg i f k)), r3)
          end
      | String "e" _ | String "E" _ => Raise Unmodelled
      | _ => Ok (VInt (signed neg i), r1)
      end
  end.

Definition literal (lit : string) (v : value) (s : string) : result (value * string) :=
  if String.prefix lit s
  then Ok (v, String.substring (String.length lit) (String.length s - String.length lit) s)
  else Raise ValueError.

Fixpoint parse_value (fuel : nat) (s : string) : result (value * string) :=
  match fuel with
  | O => Raise Unmodelled
  | S fuel =>
      match skip_ws s with
      | String "{" r =>
          match skip_ws r with
          | String "}" r' => Ok (VDict ∅, r')
          | r1 => parse_members fuel ∅ r1
          end
      | String "[" r =>
          match skip_ws r with
          | String "]" r' => Ok (VList [], r')
          | r1 => parse_elements fuel [] r1
          end
      | String "034"%char r => '(b, r') ← str_body r; Ok (VStr b, r')
      | String "n" _ as t => literal "null" VNone t
      | String "t" _ as t => literal "true" (VBool true) t
      | String "f" _ as t => literal "false" (VBool false) t
      | String "N" _ | String "I" _ => Raise Unmodelled
      | t => number t
      end
  end
with parse_members (fuel : nat) (acc : dict) (s : string) : result (value * string) :=
  match fuel with
  | O => Raise Unmodelled
  | S fuel =>
      match s with
      | String "034"%char r =>
          '(k, r1) ← str_body r;
          match skip_ws r1 with
          | String ":" r2 =>
              '(v, r3) ← parse_value fuel r2;
              match skip_ws r3 with
              | String "," r4 => parse_members fuel (<[k := v]> acc) (skip_ws r4)
              | String "}" r4 => Ok (VDict (<[k := v]> acc), r4)
              | _ => Raise ValueError
              end
          | _ => Raise ValueError
          end
      | _ => Raise ValueError
      end
  end
with parse_elements (fuel : nat) (acc : list value) (s : string) : result (value * string) :=
  match fuel with
  | O => Raise Unmodelled
  | S fuel =>
      '(v, r1) ← parse_value fuel s;
      match skip_ws r1 with
      | String "," r2 => parse_elements fuel (acc ++ [v]) r2
      | String "]" r2 => Ok (VList (acc ++ [v]), r2)
      | _ => Raise ValueError
      end
  end.

Definition json_loads (s : string) : result value :=
  '(v, r) ← parse_value (S (String.length s)) s;
  match skip_ws r with
  | EmptyString => Ok v
  | _ => Raise ValueError
  end.

(** The serialisation only feeds the refine prompt; no property depends
    on its text. *)
Definition json_dumps (v : value) : string :=
  match v with
  | VDict _ => "{...}"
  | _ => "..."
  end.

#[global] Instance runtime : Runtime :=
  Build_Runtime str_to_float str_to_int set_iter
    (fun l => Permutation_refl _) json_loads json_dumps.

End Ref.

(** * Properties *)

(** Inversion of a run that returned: each step of the [result] monad
    returned as well. *)
Ltac inv_bind H :=
  repeat match type of H with
  | (?m ≫= _) = Ok _ =>
      let E := fresh "E" in
      destruct m eqn:E; cbn [mbind result_bind] in H; [|discriminate H]
  end.

(** ** Rounding *)

Lemma round_half_even_near (q : Q) :
  (Qabs (inject_Z (round_half_even q) - q) <= 1 # 2)%Q.
Proof.
  unfold round_half_even.
  pose proof (Qfloor_le q) as Hlo. pose proof (Qlt_floor q) as Hhi.
  rewrite inject_Z_plus in Hhi.
  apply Qabs_Qle_condition.
  destruct (Qcompare_spec (q - inject_Z (Qfloor q)) (1 # 2)) as [He|Hl|Hg].
  - destruct (Z.even (Qfloor q)); rewrite ?inject_Z_plus;
      change (inject_Z 1) with 1%Q in *; split; lra.
  - change (inject_Z 1) with 1%Q in *. split; lra.
  - rewrite inject_Z_plus. change (inject_Z 1) with 1%Q in *. split; lra.
Qed.

Lemma round_half_even_tie (q : Q) :
  (Qabs (inject_Z (round_half_even q) - q) == 1 # 2)%Q ->
  Z.even (round_half_even q) = true.
Proof.
  unfold round_half_even.
  pose proof (Qfloor_le q) as Hlo. pose proof (Qlt_floor q) as Hhi.
  rewrite inject_Z_plus in Hhi.
  destruct (Qcompare_spec (q - inject_Z (Qfloor q)) (1 # 2)) as [He|Hl|Hg].
  - intros _. destruct (Z.even (Qfloor q)) eqn:E; [exact E|].
    rewrite Z.even_add, E. reflexivity.
  - intros H. exfalso. change (inject_Z 1) with 1%Q in *.
    rewrite Qabs_neg in H by lra. lra.
  - intros H. exfalso. rewrite inject_Z_plus in H.
    change (inject_Z 1) with 1%Q in *.
    rewrite Qabs_pos in H by lra. lra.
Qed.

Lemma round_half_even_range (q : Q) (lo hi : Z) :
  (inject_Z lo <= q)%Q -> (q <= inject_Z hi)%Q ->
  lo <= round_half_even q <= hi.
Proof.
  intros Hlo Hhi.
  pose proof (round_half_even_near q) as H.
  apply Qabs_Qle_condition in H. destruct H as [H1 H2].
  set (r := round_half_even q) in *.
  assert (Ha : (inject_Z (lo - 1) < inject_Z r)%Q).
  { replace (lo - 1) with (lo + -1) by lia. rewrite inject_Z_plus.
    change (inject_Z (-1)) with (-1)%Q. lra. }
  assert (Hb : (inject_Z r < inject_Z (hi + 1))%Q).
  { rewrite inject_Z_plus. change (inject_Z 1) with 1%Q. lra. }
  rewrite <- Zlt_Qlt in Ha, Hb. lia.
Qed.

(** ** Score reconciliation *)

Section ScoreFacts.
Context `{RT : Runtime}.

Lemma valid_dim_range (v : value) (d : dim) :
  valid_dim v = Some d -> dim_name d ∈ allowed /\ 0 <= dim_score d <= 100.
Proof.
  unfold valid_dim. destruct v as [| | | | |l|m]; try discriminate.
  destruct (get m "name" VNone) as [| | | |n| |]; try discriminate.
  case_bool_decide as Hn; [|discriminate].
  destruct (py_float _) as [f|]; simpl; [|discriminate].
  destruct (py_round f) as [r|]; simpl; [|discriminate].
  intros [= <-]. simpl. split; [exact Hn|lia].
Qed.

Lemma valid_dims_range (items : list value) :
  Forall (fun d => dim_name d ∈ allowed /\ 0 <= dim_score d <= 100)
         (omap valid_dim items).
Proof.
  induction items as [|v l IH]; simpl; [constructor|].
  destruct (valid_dim v) as [d|] eqn:E; [|exact IH].
  constructor; [eapply valid_dim_range; eassumption|exact IH].
Qed.

Lemma valid_dims_list (items : list value) :
  valid_dims (VList items) = Ok (omap valid_dim items).
Proof. destruct items; reflexivity. Qed.

Lemma sum_scores_range (dims : list dim) :
  Forall (fun d => dim_name d ∈ allowed /\ 0 <= dim_score d <= 100) dims ->
  0 <= sum_scores dims <= 100 * Z.of_nat (length dims).
Proof.
  unfold sum_scores. induction 1 as [|d l [_ Hd] _ IH]; simpl length; simpl; lia.
Qed.

Lemma mean_score_range (dims : list dim) :
  dims <> [] ->
  Forall (fun d => dim_name d ∈ allowed /\ 0 <= dim_score d <= 100) dims ->
  (inject_Z 0 <= mean_score dims)%Q /\ (mean_score dims <= inject_Z 100)%Q.
Proof.
  intros Hne Hall. pose proof (sum_scores_range dims Hall) as [Hlo Hhi].
  unfold mean_score.
  assert (Hn : (0 < inject_Z (Z.of_nat (length dims)))%Q).
  { change 0%Q with (inject_Z 0). rewrite <- Zlt_Qlt.
    destruct dims; [congruence|simpl length; lia]. }
  split.
  - apply Qle_shift_div_l; [exact Hn|].
    rewrite <- inject_Z_mult, <- Zle_Qle. lia.
  - apply Qle_shift_div_r; [exact Hn|].
    rewrite <- inject_Z_mult, <- Zle_Qle. lia.
Qed.

Lemma compute_verdict_table (score : Z) :
  (80 <= score -> compute_verdict score = "Strong fit")
  /\ (60 <= score < 80 -> compute_verdict score = "Good fit")
  /\ (40 <= score < 60 -> compute_verdict score = "Borderline")
  /\ (score < 40 -> compute_verdict score = "Misaligned").
Proof.
  unfold compute_verdict.
  destruct (80 <=? score) eqn:E1; destruct (60 <=? score) eqn:E2;
    destruct (40 <=? score) eqn:E3; repeat split; intros; try reflexivity; lia.
Qed.

End ScoreFacts.

(** C1. When the [dimensions] list of a verdict has at least one valid
    entry, [reconcile_scores] returns the verdict with [overall_score] set
    to the integer nearest to the mean of the valid scores (ties to the
    even integer, as [round] does), with [verdict] set from that score by
    the table [>= 80], [>= 60], [>= 40], else, and with [dimensions] set to
    the valid entries; each valid score lies in [0, 100], and the reported
    [overall_score] and [verdict] are not read. *)
Theorem reconcile_scores_from_dimensions `{RT : Runtime}
    (fit : dict) (items : list value) :
  fit !! "dimensions" = Some (VList items) ->
  omap valid_dim items <> [] ->
  exists (fit' : dict) (avg : Z),
    let dims := omap valid_dim items in
    reconcile_scores fit = Ok fit'
    /\ Forall (fun d => dim_name d ∈ allowed /\ 0 <= dim_score d <= 100) dims
    /\ fit' !! "dimensions" = Some (VList (map dim_value dims))
    /\ fit' !! "overall_score" = Some (VInt avg)
    /\ (Qabs (inject_Z avg - mean_score dims) <= 1 # 2)%Q
    /\ ((Qabs (inject_Z avg - mean_score dims) == 1 # 2)%Q -> Z.even avg = true)
    /\ 0 <= avg <= 100
    /\ (80 <= avg -> fit' !! "verdict" = Some (VStr "Strong fit"))
    /\ (60 <= avg < 80 -> fit' !! "verdict" = Some (VStr "Good fit"))
    /\ (40 <= avg < 60 -> fit' !! "verdict" = Some (VStr "Borderline"))
    /\ (avg < 40 -> fit' !! "verdict" = Some (VStr "Misaligned"))
    /\ (forall k, k <> "dimensions" -> k <> "overall_score" -> k <> "verdict" ->
          fit' !! k = fit !! k).
Proof.
  intros Hdims Hne.
  pose proof (valid_dims_range items) as Hall.
  set (dims := omap valid_dim items) in *.
  set (avg := round_half_even (mean_score dims)).
  exists (<["verdict" := VStr (compute_verdict avg)]>
         (<["overall_score" := VInt avg]>
         (<["dimensions" := VList (map dim_value dims)]> fit))), avg.
  cbv zeta.
  assert (Hrun : reconcile_scores fit = Ok
         (<["verdict" := VStr (compute_verdict avg)]>
         (<["overall_score" := VInt avg]>
         (<["dimensions" := VList (map dim_value dims)]> fit)))).
  { unfold reconcile_scores, get. rewrite Hdims.
    rewrite valid_dims_list. fold dims. cbn [mbind result_bind].
    subst avg. destruct dims as [|d ds]; [congruence|reflexivity]. }
  destruct (mean_score_range dims Hne Hall) as [Hlo Hhi].
  destruct (compute_verdict_table avg) as (T1 & T2 & T3 & T4).
  split; [exact Hrun|]. split; [exact Hall|].
  split; [by simplify_map_eq|]. split; [by simplify_map_eq|].
  split; [apply round_half_even_near|].
  split; [apply round_half_even_tie|].
  split; [apply round_half_even_range; assumption|].
  split; [intros H; rewrite lookup_insert_eq, (T1 H); reflexivity|].
  split; [intros H; rewrite lookup_insert_eq, (T2 H); reflexivity|].
  split; [intros H; rewrite lookup_insert_eq, (T3 H); reflexivity|].
  split; [intros H; rewrite lookup_insert_eq, (T4 H); reflexivity|].
  intros k H1 H2 H3. by simplify_map_eq.
Qed.

(** The example of the specification: scores 72, 55 and 68, with a reported
    overall score of 90. *)
Definition dimension (name : string) (score : Z) : value :=
  VDict (<["name" := VStr name]> (<["score" := VInt score]>
        (<["rationale" := VStr "why"]> ∅))).

Definition fit_72_55_68 : dict :=
  <["overall_score" := VInt 90]> (<["verdict" := VStr "Strong fit"]>
  (<["dimensions" := VList [dimension "Tone & Voice" 72;
                            dimension "Visual Identity" 55;
                            dimension "Brand-Product Relevance" 68]]> ∅)).

Lemma reconcile_scores_from_dimensions_witness :
  exists fit',
    reconcile_scores (RT := Ref.runtime) fit_72_55_68 = Ok fit'
    /\ fit' !! "overall_score" = Some (VInt 65)
    /\ fit' !! "verdict" = Some (VStr "Good fit").
Proof.
  assert (H1 : fit_72_55_68 !! "dimensions" =
               Some (VList [dimension "Tone & Voice" 72;
                            dimension "Visual Identity" 55;
                            dimension "Brand-Product Relevance" 68]))
    by reflexivity.
  assert (H2 : omap (valid_dim (RT := Ref.runtime))
                 [dimension "Tone & Voice" 72;
                  dimension "Visual Identity" 55;
                  dimension "Brand-Product Relevance" 68] <> [])
    by (vm_compute; discriminate).
  destruct (reconcile_scores_from_dimensions (RT := Ref.runtime) _ _ H1 H2)
    as (fit' & avg & Hrun & _ & _ & Ho & _ & _ & _ & _ & Hv & _).
  exists fit'.
  assert (Hrun' := Hrun). vm_compute in Hrun'. injection Hrun' as <-.
  split; [exact Hrun|]. split; reflexivity.
Defined.

(** C2. On a verdict without valid dimensions whose reported
    [overall_score] is a text that is no integer, [reconcile_scores]
    raises [ValueError] instead of correcting the field. *)
Theorem reconcile_scores_raises_on_text :
  reconcile_scores (RT := Ref.runtime)
    (<["dimensions" := VList []]> (<["overall_score" := VStr "N/A"]> ∅))
  = Raise ValueError.
Proof. vm_compute. reflexivity. Qed.

(** What the fallback branch does when [int] accepts the reported value. *)
Lemma reconcile_scores_fallback `{RT : Runtime} (fit : dict) (n : Z) :
  valid_dims (get fit "dimensions" VNone) = Ok [] ->
  py_int (py_or (get fit "overall_score" (VInt 0)) (VInt 0)) = Ok n ->
  reconcile_scores fit =
    Ok (<["verdict" := VStr (compute_verdict (Z.max 0 (Z.min 100 n)))]>
       (<["overall_score" := VInt (Z.max 0 (Z.min 100 n))]> fit)).
Proof.
  intros Hd Hn. unfold reconcile_scores. rewrite Hd. cbn [mbind result_bind].
  rewrite Hn. reflexivity.
Qed.

(** ** Hotspots: comparisons and clamping *)

Lemma Qltb_lt (a b : Q) : Qltb a b = true <-> (a < b)%Q.
Proof.
  unfold Qltb. rewrite Bool.negb_true_iff.
  destruct (Qle_bool b a) eqn:E.
  - apply Qle_bool_iff in E. split; [discriminate|]. intros H.
    exfalso. exact (Qlt_not_le _ _ H E).
  - split; [intros _|reflexivity]. apply Qnot_le_lt. intros H.
    apply Qle_bool_iff in H. congruence.
Qed.

Lemma Qltb_ge (a b : Q) : Qltb a b = false <-> (b <= a)%Q.
Proof.
  unfold Qltb. rewrite Bool.negb_false_iff. apply Qle_bool_iff.
Qed.



Section HotspotFacts.
Context `{RT : Runtime}.



Lemma clamp_key_lookup (hh : dict) (key k : string) :
  clamp_key hh key !! k =
    match hh !! key with
    | Some v =>
        match py_float v with
        | Ok f => if decide (key = k) then Some (VFloat (clamp01 f)) else hh !! k
        | Raise _ => hh !! k
        end
    | None => hh !! k
    end.
Proof.
  unfold clamp_key. destruct (hh !! key) as [v|] eqn:Ev; [|reflexivity].
  destruct (py_float v) as [f|e]; cbn; [|reflexivity].
  rewrite lookup_insert. reflexivity.
Qed.






Lemma coord_key_other (key : string) :
  key ∈ coord_keys ->
  key <> "label" /\ key <> "risks" /\ key <> "suggested_edits" /\ key <> "shape".
Proof.
  intros Hin. apply list_elem_of_In in Hin. cbn in Hin.
  repeat split; intros ->; intuition discriminate.
Qed.

(** [_merge] writes the keys [label], [risks] and [suggested_edits] only. *)
Lemma merge_lookup (a b m : dict) (k : string) :
  _merge a b = Ok m ->
  k <> "label" -> k <> "risks" -> k <> "suggested_edits" ->
  m !! k = a !! k.
Proof.
  unfold _merge. intros H Hl Hr Hs. cbv zeta in H. inv_bind H.
  injection H as <-.
  rewrite !lookup_insert_ne by congruence.
  destruct (_ && _); [rewrite lookup_insert_ne by congruence|]; reflexivity.
Qed.





End HotspotFacts.



(** A circular marker, as the model reports one. *)
Definition circle (cx cy r : Q) : dict :=
  <["shape" := VStr "circle"]> (<["cx" := VFloat (Fin cx)]>
  (<["cy" := VFloat (Fin cy)]> (<["r" := VFloat (Fin r)]> ∅))).



(** ** Hotspots: merging *)

Section MergeFacts.
Context `{RT : Runtime}.

Lemma set_iter_nil : set_iter [] = [].
Proof. apply Permutation_nil. symmetry. apply set_iter_perm. Qed.

Lemma set_iter_one (x : value) : set_iter [x] = [x].
Proof. apply Permutation_length_1_inv. symmetry. apply set_iter_perm. Qed.

Lemma set_iter_twice (x y : value) : py_eqb x y = true -> set_iter [x; y] = [x].
Proof.
  intros H. apply Permutation_length_1_inv. symmetry.
  pose proof (set_iter_perm [x; y]) as P. cbn in P. rewrite H in P. exact P.
Qed.

End MergeFacts.

(** Two overlapping markers with the same risk and the same suggested edit. *)
Definition marker (cx cy r : Q) : dict :=
  <["suggested_edits" := VList [VStr "crop"]]>
  (<["risks" := VList [VStr "logo"]]> (circle cx cy r)).

(** C4. Merging two hotspots that carry the same suggested edit lists the
    edit twice, in every runtime, while the shared risk is listed once. *)
Theorem dedupe_hotspots_repeats_suggested_edit `{RT : Runtime} :
  exists m,
    dedupe_hotspots [VDict (marker 0.5 0.5 0.1); VDict (marker 0.52 0.5 0.09)]
      = Ok [m]
    /\ m !! "risks" = Some (VList [VStr "logo"])
    /\ m !! "suggested_edits" = Some (VList [VStr "crop"; VStr "crop"])
    /\ _bbox m = _bbox (marker 0.5 0.5 0.1).
Proof.
  pose proof (set_iter_twice (VStr "logo") (VStr "logo") eq_refl) as Hrisks.
  pose proof (set_iter_one (VStr "crop")) as Hedits.
  destruct RT as [to_float to_int iter iter_perm loads dumps].
  cbn [set_iter] in Hrisks, Hedits.
  eexists. split; [vm_compute; reflexivity|].
  split; [|split].
  - vm_compute. rewrite Hrisks. reflexivity.
  - vm_compute. rewrite Hedits. reflexivity.
  - vm_compute. reflexivity.
Qed.

(** ** Hotspots: geometry up to equality of rationals *)

#[local] Instance Qltb_proper : Proper (Qeq ==> Qeq ==> eq) Qltb.
Proof.
  intros a a' Ha b b' Hb. unfold Qltb. f_equal.
  destruct (Qle_bool b a) eqn:E, (Qle_bool b' a') eqn:E'; try reflexivity.
  - apply Qle_bool_iff in E. rewrite Ha, Hb in E. apply Qle_bool_iff in E. congruence.
  - apply Qle_bool_iff in E'. rewrite <- Ha, <- Hb in E'. apply Qle_bool_iff in E'. congruence.
Qed.

#[local] Instance fmax_proper : Proper (Qeq ==> Qeq ==> Qeq) fmax.
Proof.
  intros a a' Ha b b' Hb. unfold fmax. rewrite <- Ha, <- Hb.
  destruct (Qltb a b); assumption.
Qed.

#[local] Instance fmin_proper : Proper (Qeq ==> Qeq ==> Qeq) fmin.
Proof.
  intros a a' Ha b b' Hb. unfold fmin. rewrite <- Ha, <- Hb.
  destruct (Qltb b a); assumption.
Qed.

(** Boxes with equal corners. *)
Definition bbox_eq (p q : bbox) : Prop :=
  (b0 p == b0 q /\ b1 p == b1 q /\ b2 p == b2 q /\ b3 p == b3 q)%Q.

#[local] Instance bbox_eq_equiv : Equivalence bbox_eq.
Proof.
  split.
  - intros p. repeat split; reflexivity.
  - intros p q (H0 & H1 & H2 & H3). repeat split; symmetry; assumption.
  - intros p q r (H0 & H1 & H2 & H3) (G0 & G1 & G2 & G3).
    repeat split; etransitivity; eassumption.
Qed.

#[local] Instance area_proper : Proper (bbox_eq ==> Qeq) _area.
Proof.
  intros p q (H0 & H1 & H2 & H3). unfold _area.
  rewrite H0, H1, H2, H3. reflexivity.
Qed.

#[local] Instance iou_proper : Proper (bbox_eq ==> bbox_eq ==> Qeq) _iou.
Proof.
  intros p p' Hp q q' Hq. unfold _iou. cbv zeta.
  pose proof (area_proper _ _ Hp) as Ap. pose proof (area_proper _ _ Hq) as Aq.
  destruct Hp as (H0 & H1 & H2 & H3), Hq as (G0 & G1 & G2 & G3).
  set (i := (fmax 0 (fmin (b2 p) (b2 q) - fmax (b0 p) (b0 q))
             * fmax 0 (fmin (b3 p) (b3 q) - fmax (b1 p) (b1 q)))%Q).
  set (i' := (fmax 0 (fmin (b2 p') (b2 q') - fmax (b0 p') (b0 q'))
              * fmax 0 (fmin (b3 p') (b3 q') - fmax (b1 p') (b1 q')))%Q).
  assert (Hi : (i == i')%Q).
  { subst i i'. rewrite H0, H1, H2, H3, G0, G1, G2, G3. reflexivity. }
  assert (Hu : (_area p + _area q - i == _area p' + _area q' - i')%Q).
  { rewrite Hi, Ap, Aq. reflexivity. }
  rewrite (Qltb_proper 0%Q 0%Q (Qeq_refl 0%Q) _ _ Hu).
  destruct (Qltb 0 _); [rewrite Hu, Hi|]; reflexivity.
Qed.

#[local] Instance centerdist2_proper : Proper (bbox_eq ==> bbox_eq ==> Qeq) _centerdist2.
Proof.
  intros p p' (H0 & H1 & H2 & H3) q q' (G0 & G1 & G2 & G3). unfold _centerdist2.
  rewrite H0, H1, H2, H3, G0, G1, G2, G3. reflexivity.
Qed.

#[local] Instance mergeable_proper : Proper (bbox_eq ==> bbox_eq ==> eq) mergeable.
Proof.
  intros p p' Hp q q' Hq. unfold mergeable.
  rewrite (iou_proper _ _ Hp _ _ Hq), (centerdist2_proper _ _ Hp _ _ Hq).
  reflexivity.
Qed.

(** ** Hotspots: what clamping and merging leave unchanged *)

Lemma clamp01_idem (f : pyfloat) : clamp01 (clamp01 f) = clamp01 f.
Proof.
  unfold clamp01.
  destruct f as [q| |[|]]; cbn [flt]; try reflexivity.
  destruct (Qltb q 1) eqn:E1; cbn [flt].
  - destruct (Qltb 0 q) eqn:E0; cbn [flt].
    + rewrite E1. cbn [flt]. rewrite E0. reflexivity.
    + reflexivity.
  - reflexivity.
Qed.

Lemma clamp01_in_range (q : Q) :
  (0 <= q <= 1)%Q -> exists q', clamp01 (Fin q) = Fin q' /\ (q' == q)%Q.
Proof.
  intros [H0 H1]. unfold clamp01. cbn [flt].
  destruct (Qltb q 1) eqn:E1; cbn [flt].
  - destruct (Qltb 0 q) eqn:E0.
    + exists q. split; reflexivity.
    + apply Qltb_ge in E0. exists 0%Q. split; [reflexivity|lra].
  - apply Qltb_ge in E1. exists 1%Q. split; [reflexivity|lra].
Qed.

Section ClampFacts.
Context `{RT : Runtime}.

(** What the clamping loop makes of the value of a coordinate field. *)
Definition clamp_value (v : value) : value :=
  match py_float v with Ok f => VFloat (clamp01 f) | Raise _ => v end.

Lemma clamp_key_lookup_value (hh : dict) (key k : string) :
  clamp_key hh key !! k =
    if decide (key = k) then clamp_value <$> hh !! k else hh !! k.
Proof.
  rewrite clamp_key_lookup. unfold clamp_value.
  destruct (decide (key = k)) as [->|Hne].
  - destruct (hh !! k) as [v|]; cbn; [|reflexivity].
    destruct (py_float v); reflexivity.
  - destruct (hh !! key) as [v|]; [|reflexivity].
    destruct (py_float v); reflexivity.
Qed.

Lemma clamp_keys_lookup (ks : list string) (h : dict) (k : string) :
  NoDup ks ->
  foldl clamp_key h ks !! k =
    if decide (k ∈ ks) then clamp_value <$> h !! k else h !! k.
Proof.
  intros Hnd. revert h. induction Hnd as [|key ks Hnotin Hnd IH]; intros h; cbn [foldl].
  - rewrite decide_False by apply not_elem_of_nil. reflexivity.
  - rewrite IH, clamp_key_lookup_value.
    destruct (decide (key = k)) as [->|Hne].
    + rewrite decide_False by exact Hnotin.
      rewrite decide_True by apply list_elem_of_here. reflexivity.
    + destruct (decide (k ∈ ks)) as [Hin|Hout].
      * rewrite decide_True by (apply list_elem_of_further; exact Hin). reflexivity.
      * rewrite decide_False; [reflexivity|].
        intros [->|Hin]%elem_of_cons; [congruence|contradiction].
Qed.

Lemma coord_keys_NoDup : NoDup coord_keys.
Proof. compute_done. Qed.

Lemma clamp_hotspot_lookup (h : dict) (k : string) :
  clamp_hotspot h !! k =
    if decide (k ∈ coord_keys) then clamp_value <$> h !! k else h !! k.
Proof. apply clamp_keys_lookup, coord_keys_NoDup. Qed.

Lemma clamp_value_idem (v : value) : clamp_value (clamp_value v) = clamp_value v.
Proof.
  unfold clamp_value at 2 3. destruct (py_float v) as [f|e] eqn:E.
  - unfold clamp_value. cbn [py_float]. rewrite clamp01_idem. reflexivity.
  - unfold clamp_value. rewrite E. reflexivity.
Qed.

Lemma clamp_hotspot_idem (h : dict) :
  clamp_hotspot (clamp_hotspot h) = clamp_hotspot h.
Proof.
  apply map_eq. intros k. rewrite !clamp_hotspot_lookup.
  destruct (decide (k ∈ coord_keys)); [|reflexivity].
  destruct (h !! k) as [v|]; cbn; [|reflexivity].
  rewrite clamp_value_idem. reflexivity.
Qed.

(** Hotspots with the same shape and the same coordinate fields. *)
Definition same_geometry (k m : dict) : Prop :=
  m !! "shape" = k !! "shape" /\ forall key, key ∈ coord_keys -> m !! key = k !! key.

Lemma same_geometry_clamped (k m : dict) :
  same_geometry k m -> clamp_hotspot k = k -> clamp_hotspot m = m.
Proof.
  intros [_ Hg] Hk. apply map_eq. intros key. rewrite clamp_hotspot_lookup.
  destruct (decide (key ∈ coord_keys)) as [Hin|]; [|reflexivity].
  rewrite (Hg key Hin). rewrite <- Hk at 2.
  rewrite clamp_hotspot_lookup, decide_True by exact Hin. reflexivity.
Qed.

Lemma same_geometry_bbox (k m : dict) : same_geometry k m -> _bbox m = _bbox k.
Proof.
  intros [Hs Hg]. unfold _bbox, shape_of, field, get. rewrite Hs.
  rewrite !Hg by compute_done.
  reflexivity.
Qed.

Lemma merge_same_geometry (a b m : dict) : _merge a b = Ok m -> same_geometry a m.
Proof.
  intros H. split.
  - apply (merge_lookup a b m "shape" H); discriminate.
  - intros key Hin. destruct (coord_key_other key Hin) as (H1 & H2 & H3 & _).
    apply (merge_lookup a b m key H); assumption.
Qed.

(** Every coordinate field present is a number of [0, 1]. *)
Definition in_range (h : dict) : Prop :=
  forall key v, key ∈ coord_keys -> h !! key = Some v ->
    exists q, py_float v = Ok (Fin q) /\ (0 <= q <= 1)%Q.

Lemma field_clamp_in_range (h : dict) (key : string) (dflt : value) (q : Q) :
  key ∈ coord_keys -> in_range h -> field h key dflt = Ok q ->
  exists q', field (clamp_hotspot h) key dflt = Ok q' /\ (q' == q)%Q.
Proof.
  intros Hin Hr. unfold field, get.
  rewrite clamp_hotspot_lookup, decide_True by exact Hin.
  destruct (h !! key) as [v|] eqn:Ev; cbn [fmap option_fmap option_map].
  - destruct (Hr key v Hin Ev) as (q0 & Hf & Hq). rewrite Hf. cbn.
    intros [= <-]. unfold clamp_value. rewrite Hf. cbn [py_float].
    destruct (clamp01_in_range q0 Hq) as (q' & -> & Hq'). cbn.
    exists q'. split; [reflexivity|exact Hq'].
  - intros H. exists q. split; [exact H|reflexivity].
Qed.

Lemma clamp_bbox_in_range (h : dict) (b : bbox) :
  in_range h -> _bbox h = Ok b ->
  exists b', _bbox (clamp_hotspot h) = Ok b' /\ bbox_eq b' b.
Proof.
  intros Hr. unfold _bbox.
  assert (Hs : shape_of (clamp_hotspot h) = shape_of h).
  { unfold shape_of, get. rewrite clamp_hotspot_lookup.
    rewrite decide_False; [reflexivity|].
    intros Hin. apply (coord_key_other _ Hin). reflexivity. }
  rewrite Hs. destruct (shape_of h) as [shape|]; cbn [mbind result_bind]; [|discriminate].
  destruct (String.eqb shape "rect").
  - intros H. inv_bind H. injection H as <-.
    destruct (field_clamp_in_range h "x" _ _ ltac:(compute_done) Hr E) as (x' & -> & Hx).
    destruct (field_clamp_in_range h "y" _ _ ltac:(compute_done) Hr E0) as (y' & -> & Hy).
    destruct (field_clamp_in_range h "w" _ _ ltac:(compute_done) Hr E1) as (w' & -> & Hw).
    destruct (field_clamp_in_range h "h" _ _ ltac:(compute_done) Hr E2) as (g' & -> & Hg).
    cbn [mbind result_bind]. eexists. split; [reflexivity|].
    unfold bbox_eq. cbn [b0 b1 b2 b3]. rewrite Hx, Hy, Hw, Hg. repeat split; reflexivity.
  - intros H. inv_bind H. injection H as <-.
    destruct (field_clamp_in_range h "cx" _ _ ltac:(compute_done) Hr E) as (x' & -> & Hx).
    destruct (field_clamp_in_range h "cy" _ _ ltac:(compute_done) Hr E0) as (y' & -> & Hy).
    destruct (field_clamp_in_range h "r" _ _ ltac:(compute_done) Hr E1) as (r' & -> & Hr').
    cbn [mbind result_bind]. eexists. split; [reflexivity|].
    unfold bbox_eq. cbn [b0 b1 b2 b3]. rewrite Hx, Hy, Hr'. repeat split; reflexivity.
Qed.

End ClampFacts.

(** ** Hotspots: the sort *)

(** Largest key first. *)
Definition key_desc (x y : Q * dict) : Prop := (fst y <= fst x)%Q.

Lemma insert_desc_perm (x : Q * dict) (l : list (Q * dict)) :
  Permutation (insert_desc x l) (x :: l).
Proof.
  induction l as [|y r IH]; cbn; [reflexivity|].
  destruct (Qltb (fst x) (fst y)); [|reflexivity].
  rewrite IH. apply perm_swap.
Qed.

Lemma sort_desc_perm (l : list (Q * dict)) : Permutation (sort_desc l) l.
Proof.
  induction l as [|x r IH]; cbn; [reflexivity|].
  rewrite insert_desc_perm. constructor. exact IH.
Qed.

Lemma insert_desc_sorted (x : Q * dict) (l : list (Q * dict)) :
  StronglySorted key_desc l -> StronglySorted key_desc (insert_desc x l).
Proof.
  induction 1 as [|y r Hr IH Hy]; cbn.
  - repeat constructor.
  - destruct (Qltb (fst x) (fst y)) eqn:E.
    + apply Qltb_lt in E. constructor; [exact IH|].
      rewrite Forall_forall. intros z Hz.
      rewrite insert_desc_perm in Hz. apply elem_of_cons in Hz as [->|Hz].
      * unfold key_desc. lra.
      * rewrite Forall_forall in Hy. apply Hy, Hz.
    + apply Qltb_ge in E. constructor; [constructor; assumption|].
      constructor; [exact E|].
      rewrite Forall_forall in Hy |- *. intros z Hz.
      specialize (Hy z Hz). unfold key_desc in *. lra.
Qed.

Lemma sort_desc_sorted (l : list (Q * dict)) : StronglySorted key_desc (sort_desc l).
Proof.
  induction l as [|x r IH]; cbn; [constructor|].
  apply insert_desc_sorted, IH.
Qed.

(** A sorted list is left as it is: the sort is stable. *)
Lemma sort_desc_id (l : list (Q * dict)) :
  StronglySorted key_desc l -> sort_desc l = l.
Proof.
  induction 1 as [|x r Hr IH Hx]; [reflexivity|].
  change (sort_desc (x :: r)) with (insert_desc x (sort_desc r)).
  rewrite IH. destruct r as [|y r']; [reflexivity|]. cbn.
  inversion Hx as [|? ? Hxy _]; subst.
  apply Qltb_ge in Hxy. rewrite Hxy. reflexivity.
Qed.

(** ** Hotspots: the loop *)

Section DedupeFacts.
Context `{RT : Runtime}.

Lemma with_area_inv (h : dict) (p : Q * dict) :
  with_area h = Ok p -> exists b, _bbox h = Ok b /\ p = (_area b, h).
Proof.
  unfold with_area. intros H. inv_bind H. injection H as <-.
  unfold area_of in E. inv_bind E. injection E as <-. eauto.
Qed.

Lemma with_area_ok (h : dict) (b : bbox) :
  _bbox h = Ok b -> with_area h = Ok (_area b, h).
Proof. intros H. unfold with_area, area_of. rewrite H. reflexivity. Qed.

Lemma keyed_snd (hs : list dict) (keyed : list (Q * dict)) :
  mapM with_area hs = Ok keyed ->
  map snd keyed = hs
  /\ Forall (fun p => exists b, _bbox (snd p) = Ok b /\ fst p = _area b) keyed.
Proof.
  revert keyed. induction hs as [|h r IH]; intros keyed H; cbn in H.
  - injection H as <-. split; constructor.
  - inv_bind H. injection H as <-.
    destruct (with_area_inv _ _ E) as (b & Hb & ->).
    destruct (IH _ eq_refl) as [Hs Hf]. cbn. split; [congruence|].
    constructor; [exists b; split; [exact Hb|reflexivity]|exact Hf].
Qed.

(** [h] is no larger than [k]. *)
Definition no_larger (k h : dict) : Prop :=
  exists bk bh, _bbox k = Ok bk /\ _bbox h = Ok bh /\ (_area bh <= _area bk)%Q.

(** [h] stays behind [k]: no larger, and not merged into it. *)
Definition behind (k h : dict) : Prop :=
  exists bk bh, _bbox k = Ok bk /\ _bbox h = Ok bh
    /\ mergeable bh bk = false /\ (_area bh <= _area bk)%Q.

Lemma sorted_no_larger (l : list (Q * dict)) :
  StronglySorted key_desc l ->
  Forall (fun p => exists b, _bbox (snd p) = Ok b /\ fst p = _area b) l ->
  StronglySorted no_larger (map snd l).
Proof.
  induction 1 as [|x r Hr IH Hx]; intros Hf; cbn; [constructor|].
  inversion Hf as [|? ? (bx & Hbx & Hax) Hfr]; subst.
  constructor; [apply IH, Hfr|].
  rewrite Forall_forall in Hx. rewrite Forall_forall in Hfr.
  rewrite Forall_forall. intros h Hh.
  apply list_elem_of_fmap in Hh as (y & -> & Hy).
  destruct (Hfr y Hy) as (by' & Hby & Hay).
  exists bx, by'. split; [exact Hbx|]. split; [exact Hby|].
  specialize (Hx y Hy). unfold key_desc in Hx. rewrite Hax, Hay in Hx. exact Hx.
Qed.

(** The result of a run that merged nothing: the entries of [kept] all
    have a box, and [b] is mergeable with none. *)
Lemma merge_into_none (h : dict) (b : bbox) (kept : list dict) :
  merge_into h b kept = Ok None <->
  Forall (fun k => exists bk, _bbox k = Ok bk /\ mergeable b bk = false) kept.
Proof.
  induction kept as [|k rest IH]; cbn.
  - split; [constructor|reflexivity].
  - split.
    + intros H. inv_bind H. destruct (mergeable b a) eqn:Em.
      * inv_bind H. discriminate H.
      * inv_bind H. destruct a0; [discriminate H|].
        constructor; [eauto|]. apply IH. reflexivity.
    + intros H. inversion H as [|? ? (bk & Hbk & Hm) Hrest]; subst.
      rewrite Hbk. cbn [mbind result_bind]. rewrite Hm.
      apply IH in Hrest. rewrite Hrest. reflexivity.
Qed.

(** A run that merged: one entry was replaced by its merge with [h], which
    has the geometry of the entry. *)
Lemma merge_into_some (h : dict) (b : bbox) (kept kept' : list dict) :
  merge_into h b kept = Ok (Some kept') -> Forall2 same_geometry kept kept'.
Proof.
  assert (Hrefl : forall l : list dict, Forall2 same_geometry l l).
  { induction l; constructor; [split; reflexivity|assumption]. }
  revert kept'. induction kept as [|k rest IH]; intros kept' H; cbn in H.
  - discriminate.
  - inv_bind H. destruct (mergeable b a).
    + inv_bind H. injection H as <-. constructor; [|apply Hrefl].
      eapply merge_same_geometry. eassumption.
    + inv_bind H. destruct a0 as [r|]; [|discriminate H].
      injection H as <-. constructor; [split; reflexivity|]. apply IH. reflexivity.
Qed.

End DedupeFacts.

Section KeptFacts.
Context `{RT : Runtime}.

(** What holds of the list [kept] when no candidate is out of range: its
    entries are clamped and have a box, and each stays behind the ones
    before it. *)
Definition kept_ok (kept : list dict) : Prop :=
  Forall (fun k => clamp_hotspot k = k /\ exists b, _bbox k = Ok b) kept
  /\ StronglySorted behind kept.

Lemma behind_no_larger (l : list dict) :
  StronglySorted behind l -> StronglySorted no_larger l.
Proof.
  induction 1 as [|x r Hr IH Hx]; constructor; [exact IH|].
  eapply Forall_impl; [exact Hx|].
  intros h (bk & bh & H1 & H2 & _ & H3). exists bk, bh. auto.
Qed.

Lemma keyed_of_sorted (l : list dict) :
  Forall (fun k => exists b, _bbox k = Ok b) l ->
  StronglySorted no_larger l ->
  exists keyed, mapM with_area l = Ok keyed /\ map snd keyed = l
    /\ StronglySorted key_desc keyed.
Proof.
  intros Hbox Hs. induction Hs as [|k r Hr IH Hk].
  - exists []. repeat split; constructor.
  - inversion Hbox as [|? ? (b & Hb) Hboxr]; subst.
    destruct (IH Hboxr) as (keyed & Hm & Hsnd & Hsorted).
    exists ((_area b, k) :: keyed). cbn [mapM].
    rewrite (with_area_ok _ _ Hb). cbn [mbind result_bind].
    rewrite Hm. cbn [mbind result_bind]. split; [reflexivity|].
    split; [cbn; congruence|]. constructor; [exact Hsorted|].
    destruct (keyed_snd _ _ Hm) as [_ Hf].
    rewrite Forall_forall in Hf. rewrite Forall_forall in Hk.
    rewrite Forall_forall. intros p Hp.
    destruct (Hf p Hp) as (bp & Hbp & Hap).
    assert (Hin : snd p ∈ r).
    { rewrite <- Hsnd. apply list_elem_of_fmap. eauto. }
    destruct (Hk _ Hin) as (bk & bh & H1 & H2 & H3).
    unfold key_desc. cbn [fst]. rewrite Hap.
    congruence.
Qed.

Lemma keep_all_kept (k2 k1 : list dict) :
  kept_ok (k1 ++ k2) -> keep_all k1 k2 = Ok (k1 ++ k2).
Proof.
  revert k1. induction k2 as [|h r IH]; intros k1 Hok; cbn [keep_all].
  - rewrite app_nil_r. reflexivity.
  - destruct Hok as [Hall Hs].
    assert (Hh : clamp_hotspot h = h /\ exists b, _bbox h = Ok b).
    { rewrite Forall_forall in Hall. apply Hall.
      apply elem_of_app. right. apply list_elem_of_here. }
    destruct Hh as [Hfix (b & Hb)].
    assert (Hnone : merge_into h b k1 = Ok None).
    { apply merge_into_none. rewrite Forall_forall. intros k Hk.
      destruct (StronglySorted_app_1_elem_of _ _ _ k h Hs Hk)
        as (bk & bh & H1 & H2 & H3 & _); [apply list_elem_of_here|].
      exists bk. split; [exact H1|]. congruence. }
    unfold keep. rewrite Hb. cbn [mbind result_bind].
    rewrite Hnone. cbn [mbind result_bind]. rewrite Hfix.
    rewrite IH; rewrite <- app_assoc; [reflexivity|]. split; assumption.
Qed.

Lemma dicts_of_dicts (l : list dict) : dicts (VDict <$> l) = l.
Proof. unfold dicts. induction l as [|k r IH]; cbn; [|rewrite IH]; reflexivity. Qed.

(** A second run over a list that is [kept_ok] changes nothing. *)
Lemma dedupe_hotspots_kept (kept : list dict) :
  kept_ok kept -> dedupe_hotspots (VDict <$> kept) = Ok (take 12 kept).
Proof.
  intros Hok. unfold dedupe_hotspots. rewrite dicts_of_dicts.
  destruct (keyed_of_sorted kept) as (keyed & Hm & Hsnd & Hsorted).
  { eapply Forall_impl; [apply Hok|]. intros k [_ H]. exact H. }
  { apply behind_no_larger, Hok. }
  rewrite Hm. cbn [mbind result_bind].
  rewrite sort_desc_id by exact Hsorted. rewrite Hsnd.
  rewrite (keep_all_kept kept []) by exact Hok. reflexivity.
Qed.

Lemma kept_ok_take (n : nat) (kept : list dict) :
  kept_ok kept -> kept_ok (take n kept).
Proof.
  intros [Hall Hs]. split; [apply Forall_take, Hall|].
  rewrite <- (take_drop n kept) in Hs.
  eapply StronglySorted_app_1_l. exact Hs.
Qed.

End KeptFacts.

Section FirstRun.
Context `{RT : Runtime}.

Lemma sorted_same_geometry (R : relation dict) (l l' : list dict) :
  (forall x x' y y', same_geometry x x' -> same_geometry y y' -> R x y -> R x' y') ->
  Forall2 same_geometry l l' -> StronglySorted R l -> StronglySorted R l'.
Proof.
  intros HR H2. induction H2 as [|x x' l l' Hx Hl IH]; intros Hs; [constructor|].
  apply StronglySorted_cons in Hs as [Hfx Hs]. constructor; [apply IH, Hs|].
  eapply Forall2_Forall_r; [exact Hl|].
  eapply Forall_impl; [exact Hfx|]. intros y Hy y' Hyy'. eapply HR; eassumption.
Qed.

Lemma behind_same_geometry (x x' y y' : dict) :
  same_geometry x x' -> same_geometry y y' -> behind x y -> behind x' y'.
Proof.
  intros Hx Hy (bk & bh & H1 & H2 & H3). exists bk, bh.
  rewrite (same_geometry_bbox _ _ Hx), (same_geometry_bbox _ _ Hy). auto.
Qed.

Lemma no_larger_same_geometry (x x' y : dict) :
  same_geometry x x' -> no_larger x y -> no_larger x' y.
Proof.
  intros Hx (bk & bh & H1 & H2 & H3). exists bk, bh.
  rewrite (same_geometry_bbox _ _ Hx). auto.
Qed.

Lemma kept_ok_same_geometry (kept kept' : list dict) :
  Forall2 same_geometry kept kept' -> kept_ok kept -> kept_ok kept'.
Proof.
  intros H2 [Hall Hs]. split.
  - eapply Forall2_Forall_r; [exact H2|].
    eapply Forall_impl; [exact Hall|]. intros k [Hfix (b & Hb)] k' Hg. split.
    + eapply same_geometry_clamped; eassumption.
    + exists b. rewrite (same_geometry_bbox _ _ Hg). exact Hb.
  - eapply sorted_same_geometry; [|exact H2|exact Hs].
    intros x x' y y'. apply behind_same_geometry.
Qed.

(** One round of the loop, on a candidate within range that is no larger
    than the entries kept so far. *)
Lemma keep_kept_ok (kept kept' : list dict) (h : dict) (rest : list dict) :
  keep kept h = Ok kept' ->
  kept_ok kept -> in_range h ->
  Forall (fun k => no_larger k h) kept ->
  Forall (no_larger h) rest ->
  Forall (fun k => Forall (no_larger k) rest) kept ->
  kept_ok kept' /\ Forall (fun k => Forall (no_larger k) rest) kept'.
Proof.
  unfold keep. intros H Hok Hr Hkh Hhr Hkr. inv_bind H.
  rename a into b. destruct a0 as [merged|]; injection H as <-.
  - apply merge_into_some in E0. split.
    + eapply kept_ok_same_geometry; eassumption.
    + eapply Forall2_Forall_r; [exact E0|].
      eapply Forall_impl; [exact Hkr|]. intros k Hk k' Hg.
      eapply Forall_impl; [exact Hk|]. intros y. apply no_larger_same_geometry, Hg.
  - apply merge_into_none in E0.
    destruct (clamp_bbox_in_range h b Hr E) as (b' & Hb' & Hbb).
    destruct Hok as [Hall Hs]. split; [split|].
    + apply Forall_app. split; [exact Hall|]. constructor; [|constructor].
      split; [apply clamp_hotspot_idem|eauto].
    + apply StronglySorted_app_2; [|exact Hs|repeat constructor].
      intros k c Hk Hc. apply list_elem_of_singleton in Hc as ->.
      rewrite Forall_forall in E0. destruct (E0 k Hk) as (bk & Hbk & Hm).
      rewrite Forall_forall in Hkh. destruct (Hkh k Hk) as (bk' & bh & G1 & G2 & G3).
      exists bk, b'. split; [exact Hbk|]. split; [exact Hb'|].
      split; [rewrite (mergeable_proper _ _ Hbb bk bk (reflexivity _)); exact Hm|].
      rewrite (area_proper _ _ Hbb).
      assert (bh = b) by congruence. assert (bk' = bk) by congruence. subst. exact G3.
    + apply Forall_app. split; [exact Hkr|]. constructor; [|constructor].
      eapply Forall_impl; [exact Hhr|].
      intros y (bh & by' & G1 & G2 & G3). exists b', by'.
      split; [exact Hb'|]. split; [exact G2|].
      rewrite (area_proper _ _ Hbb). assert (bh = b) by congruence. subst. exact G3.
Qed.

Lemma keep_all_kept_ok (rest kept kept' : list dict) :
  keep_all kept rest = Ok kept' ->
  kept_ok kept -> Forall in_range rest ->
  StronglySorted no_larger rest ->
  Forall (fun k => Forall (no_larger k) rest) kept ->
  kept_ok kept'.
Proof.
  revert kept. induction rest as [|h r IH]; intros kept H Hok Hr Hs Hkr; cbn in H.
  - injection H as <-. exact Hok.
  - inv_bind H. apply StronglySorted_cons in Hs as [Hh Hs].
    inversion Hr as [|? ? Hrh Hrr]; subst.
    destruct (keep_kept_ok kept a h r E Hok Hrh) as [Hok' Hkr'].
    + eapply Forall_impl; [exact Hkr|]. intros k Hk.
      inversion Hk; assumption.
    + exact Hh.
    + eapply Forall_impl; [exact Hkr|]. intros k Hk.
      inversion Hk; assumption.
    + eapply IH; eassumption.
Qed.

Lemma elem_of_dicts (h : dict) (l : list value) : h ∈ dicts l <-> VDict h ∈ l.
Proof.
  unfold dicts. rewrite list_elem_of_omap. split.
  - intros (v & Hv & Hd). destruct v; try discriminate. injection Hd as ->. exact Hv.
  - intros H. exists (VDict h). split; [exact H|reflexivity].
Qed.

(** The first run leaves a list that is [kept_ok]. *)
Lemma dedupe_hotspots_kept_ok (hotspots : list value) (out : list dict) :
  (forall h, VDict h ∈ hotspots -> in_range h) ->
  dedupe_hotspots hotspots = Ok out -> kept_ok out.
Proof.
  intros Hr H. unfold dedupe_hotspots in H. inv_bind H. injection H as <-.
  rename a into keyed, a0 into kept.
  destruct (keyed_snd _ _ E) as [Hsnd Hf].
  apply kept_ok_take. eapply keep_all_kept_ok; [exact E0| | | |].
  - split; constructor.
  - rewrite Forall_forall. intros h Hh. apply Hr, elem_of_dicts.
    rewrite <- Hsnd. rewrite (sort_desc_perm keyed) in Hh. exact Hh.
  - apply sorted_no_larger; [apply sort_desc_sorted|].
    rewrite (sort_desc_perm keyed). exact Hf.
  - constructor.
Qed.

End FirstRun.

(** C5, as the code has it.  When every coordinate field of every
    candidate is a number of [0, 1], a second run of [dedupe_hotspots] on
    the output of the first returns that output. *)
Theorem dedupe_hotspots_idempotent_in_range `{RT : Runtime}
    (hotspots : list value) (out : list dict) :
  (forall h, VDict h ∈ hotspots -> in_range h) ->
  dedupe_hotspots hotspots = Ok out ->
  dedupe_hotspots (VDict <$> out) = Ok out.
Proof.
  intros Hr H. pose proof (dedupe_hotspots_kept_ok _ _ Hr H) as Hok.
  rewrite (dedupe_hotspots_kept out Hok). f_equal.
  apply take_ge. unfold dedupe_hotspots in H. inv_bind H. injection H as <-.
  rewrite length_take. lia.
Qed.

(** C5 fails as stated: a marker beyond the right edge is kept next to one
    at the edge, is clamped onto the edge, and merges with its neighbour
    in the second run. *)
Lemma dedupe_hotspots_second_run_merges :
  exists out out',
    dedupe_hotspots (RT := Ref.runtime)
      [VDict (circle 0.95 0.5 0.1); VDict (circle 1.2 0.5 0.05)] = Ok out
    /\ dedupe_hotspots (RT := Ref.runtime) (VDict <$> out) = Ok out'
    /\ length out = 2%nat /\ length out' = 1%nat /\ out' <> out.
Proof.
  eexists. eexists.
  split; [vm_compute; reflexivity|].
  split; [vm_compute; reflexivity|].
  split; [reflexivity|]. split; [reflexivity|].
  intros H. apply (f_equal length) in H. discriminate H.
Qed.

Lemma circle_in_range `{RT : Runtime} (cx cy r : Q) :
  (0 <= cx <= 1)%Q -> (0 <= cy <= 1)%Q -> (0 <= r <= 1)%Q ->
  in_range (circle cx cy r).
Proof.
  intros Hx Hy Hr key v Hkey Hv.
  apply list_elem_of_In in Hkey. cbn in Hkey.
  destruct Hkey as [<-|[<-|[<-|[<-|[<-|[<-|[<-|[]]]]]]]];
    vm_compute in Hv; try discriminate Hv; injection Hv as <-; eauto.
Qed.

Lemma dedupe_hotspots_idempotent_in_range_witness :
  exists out,
    dedupe_hotspots (RT := Ref.runtime)
      [VDict (circle 0.5 0.5 0.1); VStr "note"; VDict (circle 0.52 0.5 0.09);
       VDict (circle 0.2 0.2 0.05)] = Ok out
    /\ length out = 2%nat
    /\ dedupe_hotspots (RT := Ref.runtime) (VDict <$> out) = Ok out.
Proof.
  eexists. split; [vm_compute; reflexivity|]. split; [reflexivity|].
  apply (dedupe_hotspots_idempotent_in_range (RT := Ref.runtime)
           [VDict (circle 0.5 0.5 0.1); VStr "note"; VDict (circle 0.52 0.5 0.09);
            VDict (circle 0.2 0.2 0.05)]).
  - intros h Hh. apply list_elem_of_In in Hh. cbn in Hh.
    destruct Hh as [[= <-]|[[=]|[[= <-]|[[= <-]|[]]]]];
      apply circle_in_range; split; vm_compute; discriminate.
  - vm_compute. reflexivity.
Defined.

(** ** Hotspots: the order of the input *)

Section InputOrder.
Context `{RT : Runtime}.

Lemma mapM_Permutation {A B} (f : A -> result B) (l l' : list A) (ys : list B) :
  Permutation l l' -> mapM f l = Ok ys ->
  exists ys', mapM f l' = Ok ys' /\ Permutation ys ys'.
Proof.
  intros P. revert ys. induction P as [|x l l' P IH|x y l|l l' l'' P IH P' IH'];
    intros ys H.
  - exists ys. split; [exact H|reflexivity].
  - cbn in H. inv_bind H. injection H as <-.
    destruct (IH _ eq_refl) as (ys' & Hys' & Pys).
    exists (a :: ys'). cbn. rewrite E. cbn [mbind result_bind].
    rewrite Hys'. split; [reflexivity|]. constructor. exact Pys.
  - cbn in H. inv_bind H. injection H as <-. inv_bind E0. injection E0 as <-.
    exists (a1 :: a :: a2). cbn. rewrite E1. cbn [mbind result_bind].
    rewrite E. cbn [mbind result_bind]. rewrite E2. split; [reflexivity|].
    apply perm_swap.
  - destruct (IH _ H) as (ys' & Hys' & Pys).
    destruct (IH' _ Hys') as (ys'' & Hys'' & Pys').
    exists ys''. split; [exact Hys''|]. etransitivity; eassumption.
Qed.

(** No two different candidates have boxes of the same area. *)
Definition distinct_areas (hotspots : list value) : Prop :=
  forall h1 h2 a1 a2,
    VDict h1 ∈ hotspots -> VDict h2 ∈ hotspots ->
    area_of h1 = Ok a1 -> area_of h2 = Ok a2 -> (a1 == a2)%Q -> h1 = h2.

Lemma sort_desc_Permutation (hs hs' : list dict) (keyed keyed' : list (Q * dict)) :
  (forall h1 h2 a1 a2, h1 ∈ hs -> h2 ∈ hs ->
     area_of h1 = Ok a1 -> area_of h2 = Ok a2 -> (a1 == a2)%Q -> h1 = h2) ->
  Permutation hs hs' ->
  mapM with_area hs = Ok keyed -> mapM with_area hs' = Ok keyed' ->
  sort_desc keyed = sort_desc keyed'.
Proof.
  intros Hd P Hk Hk'.
  destruct (mapM_Permutation _ _ _ _ P Hk) as (k2 & Hk2 & Pk).
  assert (k2 = keyed') by congruence. subst k2.
  destruct (keyed_snd _ _ Hk) as [Hsnd Hf].
  destruct (keyed_snd _ _ Hk') as [Hsnd' Hf'].
  apply (StronglySorted_unique_strong key_desc);
    [|apply sort_desc_sorted|apply sort_desc_sorted|].
  - intros [a1 h1] [a2 h2] H1 H2 R12 R21.
    rewrite sort_desc_perm in H1. rewrite sort_desc_perm in H2.
    rewrite <- Pk in H2.
    rewrite Forall_forall in Hf.
    destruct (Hf _ H1) as (c1 & Hc1 & Ha1). destruct (Hf _ H2) as (c2 & Hc2 & Ha2).
    cbn [fst snd] in *. unfold key_desc in R12, R21. cbn [fst] in R12, R21.
    assert (h1 = h2).
    { apply (Hd h1 h2 a1 a2).
      - rewrite <- Hsnd. apply list_elem_of_fmap. exists (a1, h1). auto.
      - rewrite <- Hsnd. apply list_elem_of_fmap. exists (a2, h2). auto.
      - unfold area_of. rewrite Hc1. cbn. congruence.
      - unfold area_of. rewrite Hc2. cbn. congruence.
      - lra. }
    subst h2. congruence.
  - rewrite !sort_desc_perm. exact Pk.
Qed.

(** The candidate an entry of the result has its geometry from. *)
Definition origin (k h : dict) : Prop := same_geometry (clamp_hotspot h) k.

Lemma same_geometry_trans (a b c : dict) :
  same_geometry a b -> same_geometry b c -> same_geometry a c.
Proof.
  intros [Hs Hg] [Hs' Hg']. split; [congruence|].
  intros key Hin. rewrite (Hg' key Hin). apply Hg, Hin.
Qed.

Lemma sorted_drop_middle {A} (R : relation A) (l1 l2 : list A) (x : A) :
  StronglySorted R (l1 ++ x :: l2) -> StronglySorted R (l1 ++ l2).
Proof.
  rewrite !StronglySorted_app. intros (H12 & H1 & H2).
  apply StronglySorted_cons in H2 as [_ H2]. split; [|split; assumption].
  intros x1 x2 Hx1 Hx2. apply H12; [exact Hx1|]. apply list_elem_of_further, Hx2.
Qed.

Lemma keep_all_origin (P : dict -> Prop) (rest kept kept' srcs : list dict) :
  keep_all kept rest = Ok kept' ->
  Forall2 origin kept srcs ->
  StronglySorted no_larger (srcs ++ rest) ->
  Forall P (srcs ++ rest) ->
  exists srcs', Forall2 origin kept' srcs'
    /\ StronglySorted no_larger srcs' /\ Forall P srcs'.
Proof.
  revert kept srcs. induction rest as [|h r IH]; intros kept srcs H Ho Hs HP; cbn in H.
  - injection H as <-. rewrite app_nil_r in Hs, HP. eauto.
  - inv_bind H. unfold keep in E. inv_bind E.
    destruct a1 as [merged|]; injection E as <-.
    + apply merge_into_some in E1.
      apply (IH merged srcs H).
      * clear -Ho E1. revert srcs Ho.
        induction E1 as [|k k' l l' Hk Hl IHl]; intros srcs Ho;
          inversion Ho; subst; constructor; [|apply IHl; assumption].
        unfold origin in *. eapply same_geometry_trans; eassumption.
      * eapply sorted_drop_middle. exact Hs.
      * rewrite Forall_app in HP. destruct HP as [HP1 HP2].
        inversion HP2; subst. apply Forall_app. split; assumption.
    + apply (IH (kept ++ [clamp_hotspot h]) (srcs ++ [h]) H).
      * apply Forall2_app; [exact Ho|]. constructor; [|constructor].
        split; reflexivity.
      * rewrite <- app_assoc. exact Hs.
      * rewrite <- app_assoc. exact HP.
Qed.

End InputOrder.

(** C6, as the code has it.  When no two different candidates have boxes
    of the same area, every permutation of the input gives the same
    output.  In any case each hotspot of the output has the shape and the
    clamped coordinates of one candidate, and these candidates come
    largest box first, the box being that of the candidate before
    clamping. *)
Theorem dedupe_hotspots_input_order `{RT : Runtime}
    (hotspots hotspots' : list value) (out : list dict) :
  Permutation hotspots hotspots' ->
  distinct_areas hotspots ->
  dedupe_hotspots hotspots = Ok out ->
  dedupe_hotspots hotspots' = Ok out
  /\ exists srcs,
       Forall2 origin out srcs
       /\ StronglySorted no_larger srcs
       /\ Forall (fun h => VDict h ∈ hotspots) srcs.
Proof.
  intros P Hd H. split.
  - unfold dedupe_hotspots in *. inv_bind H. injection H as <-.
    rename a into keyed, a0 into kept.
    assert (Pd : Permutation (dicts hotspots) (dicts hotspots')).
    { unfold dicts. rewrite P. reflexivity. }
    destruct (mapM_Permutation _ _ _ _ Pd E) as (keyed' & Hk' & _).
    rewrite Hk'. cbn [mbind result_bind].
    assert (Hd' : forall h1 h2 a1 a2, h1 ∈ dicts hotspots -> h2 ∈ dicts hotspots ->
              area_of h1 = Ok a1 -> area_of h2 = Ok a2 -> (a1 == a2)%Q -> h1 = h2).
    { intros h1 h2 a1 a2 H1 H2. apply Hd; apply elem_of_dicts; assumption. }
    rewrite <- (sort_desc_Permutation _ _ _ _ Hd' Pd E Hk').
    rewrite E0. reflexivity.
  - unfold dedupe_hotspots in H. inv_bind H. injection H as <-.
    rename a into keyed, a0 into kept.
    destruct (keyed_snd _ _ E) as [Hsnd Hf].
    destruct (keep_all_origin (fun h => VDict h ∈ hotspots) _ [] kept [] E0)
      as (srcs & Ho & Hs & HP).
    + constructor.
    + apply sorted_no_larger; [apply sort_desc_sorted|].
      rewrite (sort_desc_perm keyed). exact Hf.
    + rewrite Forall_forall. intros h Hh. apply elem_of_dicts.
      rewrite <- Hsnd. cbn [app] in Hh. rewrite (sort_desc_perm keyed) in Hh. exact Hh.
    + exists (take 12 srcs). split; [apply Forall2_take, Ho|].
      split; [|apply Forall_take, HP].
      rewrite <- (take_drop 12 srcs) in Hs. eapply StronglySorted_app_1_l. exact Hs.
Qed.
